(** * Hangul grapheme splitting: a model of [src/js/split-grapheme.js]

    Modelling conventions.

    - A JavaScript string is its sequence of UTF-16 code units, a [list Z];
      [length] is the [.length] property.
    - A JavaScript number is modelled as an exact rational ([Q]).  Every
      operand the program reaches is an integer of magnitude below 2^17
      divided by 28 or by 588; on such operands the rounding of IEEE
      doubles never moves a quotient across an integer, so [Math.floor] and
      [%] give the values computed here.  The same holds on every integer
      code point, 0 to 0x10FFFF; from about 2^53 on doubles round and the
      exact model no longer describes the code, so the statements about the
      index functions are made on code points only.
    - [throw new Error(msg)] is the [Err] branch of [result]; the three
      messages of the source are the three constructors of [error]. *)

From Stdlib Require Import ZArith QArith Qround List Bool Lia.
Import ListNotations.

Local Open Scope Z_scope.

(** ** Values, errors *)

Definition jstring := list Z.

Inductive value :=
| Undefined
| Num (n : Q)
| Str (s : jstring).

Inductive jstype := TUndefined | TNumber | TString.

Definition typeof (v : value) : jstype :=
  match v with
  | Undefined => TUndefined
  | Num _ => TNumber
  | Str _ => TString
  end.

Inductive error :=
| EmptyWord       (* thrown by getGraphemeList: at least one letter wanted *)
| NotOneLetter    (* thrown by getUnicode: exactly one letter wanted *)
| NotANumber.     (* thrown by the index functions: a number wanted *)

Inductive result (A : Type) :=
| Ok (a : A)
| Err (e : error).

Arguments Ok {A} a.
Arguments Err {A} e.

Definition bind {A B} (r : result A) (k : A -> result B) : result B :=
  match r with
  | Ok a => k a
  | Err e => Err e
  end.

Notation "x <- r ;; k" := (bind r (fun x => k))
  (at level 61, r at next level, right associativity).

(** ** Built-ins of the language the program calls *)

Module Js.

(** [ToUint16], applied by [String.fromCharCode] to its argument. *)
Definition toUint16 (n : Z) : Z := n mod 65536.

Definition fromCharCode (n : Z) : jstring := [toUint16 n].

Definition isLeadSurrogate (u : Z) : bool := (0xD800 <=? u) && (u <=? 0xDBFF).
Definition isTrailSurrogate (u : Z) : bool := (0xDC00 <=? u) && (u <=? 0xDFFF).

Definition utf16Decode (lead trail : Z) : Z :=
  (lead - 0xD800) * 0x400 + (trail - 0xDC00) + 0x10000.

(** [s.codePointAt(0)]: [None] is [undefined]. *)
Definition codePointAt0 (s : jstring) : option Z :=
  match s with
  | [] => None
  | first :: rest =>
      match rest with
      | second :: _ =>
          if isLeadSurrogate first && isTrailSurrogate second
          then Some (utf16Decode first second)
          else Some first
      | [] => Some first
      end
  end.

(** The string iterator behind [[...word]]: one element per code point,
    a surrogate pair taken together, a lone surrogate on its own. *)
Fixpoint spread (s : jstring) : list jstring :=
  match s with
  | [] => []
  | first :: rest =>
      match rest with
      | second :: rest' =>
          if isLeadSurrogate first && isTrailSurrogate second
          then [first; second] :: spread rest'
          else [first] :: spread rest
      | [] => [[first]]
      end
  end.

(** Truncation towards zero, and the [%] operator on numbers:
    the remainder takes the sign of the dividend. *)
Definition trunc (q : Q) : Z := Z.quot (Qnum q) (Zpos (Qden q)).

Definition rem (a b : Q) : Q := (a - b * inject_Z (trunc (a / b)))%Q.

Definition floor (q : Q) : Z := Qfloor q.

(** [s.match(re)] for a global regular expression whose pattern is one
    character class, without the [u] flag: the matches are the code
    units of [s] that belong to the class, [None] ([null]) if there are
    none. *)
Definition matchClassG (inClass : Z -> bool) (s : jstring)
  : option (list jstring) :=
  match filter inClass s with
  | [] => None
  | ms => Some (map (fun u => [u]) ms)
  end.

Definition truthy {A} (o : option A) : bool :=
  match o with Some _ => true | None => false end.

End Js.

(** ** The program *)

Definition korGAUnicode : Z := 0xAC00.

Definition firstInitial : Z := 0x1100.
Definition firstMedial : Z := 0x1161.
Definition firstFinal : Z := 0x11A7.

Definition initialCount : Z := 18.
Definition medialCount : Z := 21.
Definition finalCount : Z := 28.

(** The character class [[ㄱ-ㅎ|가-힣]]: the range U+3131..U+314E, the
    character [|] (U+007C, literal inside a class) and the range
    U+AC00..U+D7A3. *)
Definition koreanClass (u : Z) : bool :=
  ((0x3131 <=? u) && (u <=? 0x314E))
  || (u =? 0x7C)
  || ((0xAC00 <=? u) && (u <=? 0xD7A3)).

Record grapheme := mkGrapheme {
  isKorean : bool;
  initial : jstring;
  medial : option jstring;
  final : option jstring
}.

Record indices := mkIndices {
  initialIx : Z;
  medialIx : Z;
  finalIx : Z
}.

Definition getLetterFromUnicode (unicode : Z) : jstring :=
  Js.fromCharCode unicode.

Definition getInitialLetter (unicode : Z) : jstring :=
  getLetterFromUnicode (unicode + firstInitial).

Definition getMedialLetter (unicode : Z) : jstring :=
  getLetterFromUnicode (unicode + firstMedial).

Definition getFinalLetter (unicode : Z) : jstring :=
  getLetterFromUnicode (unicode + firstFinal).

Definition splitWord (word : jstring) : list jstring := Js.spread word.

Definition getUnicode (letter : jstring) : result value :=
  if negb (Z.of_nat (length letter) =? 1) then Err NotOneLetter
  else Ok (match Js.codePointAt0 letter with
           | Some cp => Num (inject_Z cp)
           | None => Undefined
           end).

Definition getInitialIndex (unicode : value) : result Z :=
  match unicode with
  | Num u =>
      Ok (Js.floor ((u - inject_Z korGAUnicode)
                    / (inject_Z medialCount * inject_Z finalCount))%Q)
  | _ => Err NotANumber
  end.

Definition getMedialIndex (unicode : value) : result Z :=
  match unicode with
  | Num u =>
      Ok (Js.floor (Js.rem ((u - inject_Z korGAUnicode) / inject_Z finalCount)%Q
                           (inject_Z medialCount)))
  | _ => Err NotANumber
  end.

Definition getFinalIndex (unicode : value) : result Z :=
  match unicode with
  | Num u =>
      Ok (Js.floor (Js.rem (u - inject_Z korGAUnicode)%Q (inject_Z finalCount)))
  | _ => Err NotANumber
  end.

Definition splitGrapheme (unicode : value) : result indices :=
  i <- getInitialIndex unicode ;;
  m <- getMedialIndex unicode ;;
  f <- getFinalIndex unicode ;;
  Ok (mkIndices i m f).

(** The callback handed to [reduce]: it pushes one record on [arr] and
    returns [arr]. *)
Definition pushLetter (arr : list grapheme) (letter : jstring)
  : result (list grapheme) :=
  if Js.truthy (Js.matchClassG koreanClass letter) then
    u <- getUnicode letter ;;
    ix <- splitGrapheme u ;;
    Ok (arr ++ [mkGrapheme true
                  (getInitialLetter (initialIx ix))
                  (Some (getMedialLetter (medialIx ix)))
                  (Some (getFinalLetter (finalIx ix)))])
  else
    Ok (arr ++ [mkGrapheme false letter None None]).

(** [letters.reduce(f, init)], with a callback that may throw. *)
Fixpoint reduce {A B} (f : B -> A -> result B) (l : list A) (acc : B)
  : result B :=
  match l with
  | [] => Ok acc
  | x :: l' => acc' <- f acc x ;; reduce f l' acc'
  end.

Definition getGraphemeList (word : jstring) : result (list grapheme) :=
  if Z.of_nat (length word) <? 1 then Err EmptyWord
  else reduce pushLetter (splitWord word) [].

(** ** Predicates the statements below are written with *)

(** A letter as the string iterator yields it: one UTF-16 unit, or a lead
    surrogate followed by a trail surrogate. *)
Definition oneCodePoint (letter : jstring) : bool :=
  match letter with
  | [_] => true
  | [lead; trail] => Js.isLeadSurrogate lead && Js.isTrailSurrogate trail
  | _ => false
  end.

(** The number of code points of a string, counted unit by unit: every
    unit starts a code point, except a trail surrogate that directly follows
    a lead surrogate still waiting for its second half. *)
Fixpoint countCodePoints (pendingLead : bool) (s : jstring) : nat :=
  match s with
  | [] => O
  | u :: s' =>
      if pendingLead && Js.isTrailSurrogate u
      then countCodePoints false s'
      else S (countCodePoints (Js.isLeadSurrogate u) s')
  end.

Definition codePointCount (s : jstring) : nat := countCodePoints false s.

(** [g] is the record the callback pushes for [letter], whatever the
    accumulator holds. *)
Definition recordOf (letter : jstring) (g : grapheme) : Prop :=
  forall arr, pushLetter arr letter = Ok (arr ++ [g]).

(** The record built in the first branch of the callback from the three
    indices. *)
Definition koreanRecord (ix : indices) : grapheme :=
  mkGrapheme true
    (getInitialLetter (initialIx ix))
    (Some (getMedialLetter (medialIx ix)))
    (Some (getFinalLetter (finalIx ix))).

(** The three indices of the code point [c] stay below [ni], [nm] and [nf]. *)
Definition indicesWithin (ni nm nf : Z) (c : Z) : Prop :=
  exists i m f,
    getInitialIndex (Num (inject_Z c)) = Ok i
    /\ getMedialIndex (Num (inject_Z c)) = Ok m
    /\ getFinalIndex (Num (inject_Z c)) = Ok f
    /\ 0 <= i < ni /\ 0 <= m < nm /\ 0 <= f < nf.

(** ** First evaluations *)

Example getGraphemeList_ga :
  getGraphemeList [0xAC00]
  = Ok [mkGrapheme true [0x1100] (Some [0x1161]) (Some [0x11A7])].
Proof. reflexivity. Qed.

Example getGraphemeList_geul :
  getGraphemeList [0xAE00]
  = Ok [mkGrapheme true [0x1100] (Some [0x1173]) (Some [0x11AF])].
Proof. reflexivity. Qed.

Example getGraphemeList_a_han_1 :
  getGraphemeList [0x61; 0xD55C; 0x31]
  = Ok [mkGrapheme false [0x61] None None;
        mkGrapheme true [0x1112] (Some [0x1161]) (Some [0x11AB]);
        mkGrapheme false [0x31] None None].
Proof. reflexivity. Qed.

Example getGraphemeList_kiyeok :
  getGraphemeList [0x3131]
  = Ok [mkGrapheme true [0x10CA] (Some [0x1157]) (Some [0x1190])].
Proof. reflexivity. Qed.

Example getUnicode_ga : getUnicode [0xAC00] = Ok (Num (inject_Z 44032)).
Proof. reflexivity. Qed.

(** ** The index functions on integer code points *)

Section IndexArithmetic.

Variable c : Z.

Let offset : Z := c - korGAUnicode.

Ltac q_unfold :=
  change (inject_Z medialCount * inject_Z finalCount)%Q with (inject_Z 588);
  cbv [Js.floor Js.rem Js.trunc Qfloor Qminus Qplus Qopp Qdiv Qmult Qinv
       inject_Z Qnum Qden offset korGAUnicode medialCount finalCount];
  cbn [Pos.mul Pos.add Pos.succ Pos.add_carry].

(** [Math.floor(offset / 588)] is the floor division of integers. *)
Lemma getInitialIndex_int :
  getInitialIndex (Num (inject_Z c)) = Ok (offset / (medialCount * finalCount)).
Proof.
  unfold getInitialIndex. q_unfold.
  do 2 f_equal; lia.
Qed.

(** [Math.floor(offset / 28 % 21)]: the quotient [offset / 28] has the
    sign of [offset], and [%] keeps that sign. *)
Lemma getMedialIndex_int :
  getMedialIndex (Num (inject_Z c))
  = Ok ((offset - medialCount * finalCount
                  * Z.quot offset (medialCount * finalCount)) / finalCount).
Proof.
  unfold getMedialIndex. q_unfold.
  f_equal. Z.to_euclidean_division_equations. lia.
Qed.

Lemma getFinalIndex_int :
  getFinalIndex (Num (inject_Z c)) = Ok (Z.rem offset finalCount).
Proof.
  unfold getFinalIndex. q_unfold.
  f_equal. Z.to_euclidean_division_equations. lia.
Qed.

(** From [korGAUnicode] upwards the three indices are the usual
    quotient and remainders. *)
Lemma getMedialIndex_nonneg :
  korGAUnicode <= c ->
  getMedialIndex (Num (inject_Z c)) = Ok ((offset / finalCount) mod medialCount).
Proof.
  intros Hc. rewrite getMedialIndex_int. f_equal.
  unfold offset, korGAUnicode, medialCount, finalCount in *.
  Z.to_euclidean_division_equations. lia.
Qed.

Lemma getFinalIndex_nonneg :
  korGAUnicode <= c ->
  getFinalIndex (Num (inject_Z c)) = Ok (offset mod finalCount).
Proof.
  intros Hc. rewrite getFinalIndex_int. f_equal.
  unfold offset, korGAUnicode, finalCount in *.
  Z.to_euclidean_division_equations. lia.
Qed.

Lemma splitGrapheme_int :
  splitGrapheme (Num (inject_Z c))
  = Ok (mkIndices
          (offset / (medialCount * finalCount))
          ((offset - medialCount * finalCount
                     * Z.quot offset (medialCount * finalCount)) / finalCount)
          (Z.rem offset finalCount)).
Proof.
  unfold splitGrapheme.
  rewrite getInitialIndex_int, getMedialIndex_int, getFinalIndex_int.
  reflexivity.
Qed.

End IndexArithmetic.

(** The index functions throw exactly on what is not a number. *)
Lemma index_functions_typecheck (v : value) :
  typeof v = TNumber <->
  (exists i m f, getInitialIndex v = Ok i /\ getMedialIndex v = Ok m
                 /\ getFinalIndex v = Ok f).
Proof.
  destruct v; cbn; split; intros H; try discriminate; try reflexivity.
  - destruct H as (i & m & f & H & _); discriminate.
  - do 3 eexists; repeat split; reflexivity.
  - destruct H as (i & m & f & H & _); discriminate.
Qed.

(** C1: for every code point [c] of the syllable block U+AC00..U+D7A3 the
    three index functions return integers [i], [m], [f] with
    [i * 21 * 28 + m * 28 + f = c - 0xAC00]. *)
Theorem index_round_trip (c : Z) :
  0xAC00 <= c <= 0xD7A3 ->
  exists i m f,
    getInitialIndex (Num (inject_Z c)) = Ok i
    /\ getMedialIndex (Num (inject_Z c)) = Ok m
    /\ getFinalIndex (Num (inject_Z c)) = Ok f
    /\ i * 21 * 28 + m * 28 + f = c - 0xAC00.
Proof.
  intros Hc.
  rewrite getInitialIndex_int, getMedialIndex_nonneg, getFinalIndex_nonneg
    by (unfold korGAUnicode; lia).
  do 3 eexists. repeat split.
  unfold korGAUnicode, medialCount, finalCount.
  Z.to_euclidean_division_equations. lia.
Qed.

Lemma index_round_trip_witness :
  0xAC00 <= 0xD55C <= 0xD7A3
  /\ exists i m f,
       getInitialIndex (Num (inject_Z 0xD55C)) = Ok i
       /\ getMedialIndex (Num (inject_Z 0xD55C)) = Ok m
       /\ getFinalIndex (Num (inject_Z 0xD55C)) = Ok f
       /\ i * 21 * 28 + m * 28 + f = 0xD55C - 0xAC00.
Proof.
  split; [lia | apply (index_round_trip 0xD55C); lia].
Defined.

(** C2, as stated, fails: the syllable U+D55C has initial index 18, which is
    not below [initialCount] = 18. *)
Lemma index_bounds_counterexample :
  0xAC00 <= 0xD55C <= 0xD7A3
  /\ getInitialIndex (Num (inject_Z 0xD55C)) = Ok 18
  /\ ~ indicesWithin initialCount medialCount finalCount 0xD55C.
Proof.
  split; [lia|]. split; [reflexivity|].
  intros (i & m & f & Hi & _ & _ & Hb & _).
  rewrite getInitialIndex_int in Hi. injection Hi as <-.
  vm_compute in Hb. destruct Hb as [_ Hb]. discriminate Hb.
Qed.

(** C2, amended: for every code point [c] of the syllable block
    U+AC00..U+D7A3 the initial index lies in [0,19), the medial index in
    [0,21) and the final index in [0,28). *)
Theorem index_bounds (c : Z) :
  0xAC00 <= c <= 0xD7A3 ->
  indicesWithin (initialCount + 1) medialCount finalCount c.
Proof.
  intros Hc. unfold indicesWithin.
  rewrite getInitialIndex_int, getMedialIndex_nonneg, getFinalIndex_nonneg
    by (unfold korGAUnicode; lia).
  do 3 eexists. split; [reflexivity|]. split; [reflexivity|]. split; [reflexivity|].
  unfold korGAUnicode, initialCount, medialCount, finalCount.
  Z.to_euclidean_division_equations. lia.
Qed.

Lemma index_bounds_witness :
  0xAC00 <= 0xD7A3 <= 0xD7A3
  /\ indicesWithin (initialCount + 1) medialCount finalCount 0xD7A3.
Proof.
  split; [lia | apply (index_bounds 0xD7A3); lia].
Defined.

(** ** Letters of a word *)

Lemma list_pair_ind (A : Type) (P : list A -> Prop) :
  P [] ->
  (forall x, P [x]) ->
  (forall x y l, P l -> P (y :: l) -> P (x :: y :: l)) ->
  forall l, P l.
Proof.
  intros Hnil Hone Hstep l.
  assert (H : P l /\ forall x, P (x :: l)).
  { induction l as [|y l [IH1 IH2]].
    - split; [exact Hnil | exact Hone].
    - split; [apply IH2 | intros x; apply Hstep; [exact IH1 | apply IH2]]. }
  apply H.
Qed.

Lemma spread_cons2 (first second : Z) (rest : jstring) :
  Js.spread (first :: second :: rest)
  = if Js.isLeadSurrogate first && Js.isTrailSurrogate second
    then [first; second] :: Js.spread rest
    else [first] :: Js.spread (second :: rest).
Proof. reflexivity. Qed.

Lemma splitWord_concat (word : jstring) : concat (splitWord word) = word.
Proof.
  unfold splitWord.
  induction word as [|x|x y l IHl IHyl] using list_pair_ind; try reflexivity.
  rewrite spread_cons2.
  destruct (Js.isLeadSurrogate x && Js.isTrailSurrogate y).
  - cbn [concat app]. now rewrite IHl.
  - cbn [concat app]. now rewrite IHyl.
Qed.

Lemma splitWord_code_points (word : jstring) :
  Forall (fun letter => oneCodePoint letter = true) (splitWord word).
Proof.
  unfold splitWord.
  induction word as [|x|x y l IHl IHyl] using list_pair_ind.
  - constructor.
  - repeat constructor.
  - rewrite spread_cons2.
    destruct (Js.isLeadSurrogate x && Js.isTrailSurrogate y) eqn:E.
    + constructor; [exact E | exact IHl].
    + constructor; [reflexivity | exact IHyl].
Qed.

Lemma splitWord_nil (word : jstring) : splitWord word = [] <-> word = [].
Proof.
  split; [| intros ->; reflexivity].
  intros H. rewrite <- (splitWord_concat word), H. reflexivity.
Qed.

(** The iterator yields as many letters as the word has code points. *)
Lemma splitWord_length_code_points (word : jstring) :
  length (splitWord word) = codePointCount word.
Proof.
  unfold splitWord, codePointCount.
  induction word as [|x|x y l IHl IHyl] using list_pair_ind.
  - reflexivity.
  - reflexivity.
  - rewrite spread_cons2. cbn [countCodePoints andb] in *.
    destruct (Js.isLeadSurrogate x && Js.isTrailSurrogate y);
      cbn [length]; congruence.
Qed.

Lemma spread_head (y : Z) (r letter : jstring) (post : list jstring) :
  Js.spread (y :: r) = letter :: post -> hd_error letter = Some y.
Proof.
  destruct r as [|z r]; cbn [Js.spread].
  - intros [= <- _]. reflexivity.
  - destruct (Js.isLeadSurrogate y && Js.isTrailSurrogate z);
      intros [= <- _]; reflexivity.
Qed.

(** The iterator never cuts a surrogate pair: a letter made of a lone lead
    surrogate is not followed by a letter that starts with a trail
    surrogate. *)
Lemma splitWord_keeps_pairs (word : jstring) :
  forall pre u letter post v,
    splitWord word = pre ++ [u] :: letter :: post ->
    hd_error letter = Some v ->
    Js.isLeadSurrogate u && Js.isTrailSurrogate v = false.
Proof.
  unfold splitWord.
  induction word as [|x|x y l IHl IHyl] using list_pair_ind;
    intros pre u letter post v Hs Hv.
  - destruct pre; discriminate.
  - destruct pre as [|p [|q pre]]; discriminate.
  - rewrite spread_cons2 in Hs.
    destruct (Js.isLeadSurrogate x && Js.isTrailSurrogate y) eqn:E.
    + destruct pre as [|p pre]; [discriminate|].
      injection Hs as _ Hs. exact (IHl _ _ _ _ _ Hs Hv).
    + destruct pre as [|p pre].
      * injection Hs as Hx Hs. subst x.
        rewrite (spread_head _ _ _ _ Hs) in Hv. injection Hv as <-.
        exact E.
      * injection Hs as _ Hs. exact (IHyl _ _ _ _ _ Hs Hv).
Qed.

Lemma truthy_matchClassG (inClass : Z -> bool) (s : jstring) :
  Js.truthy (Js.matchClassG inClass s) = existsb inClass s.
Proof.
  unfold Js.matchClassG.
  induction s as [|u s IH]; [reflexivity|].
  cbn [filter existsb]. destruct (inClass u); [reflexivity|].
  exact IH.
Qed.

Lemma surrogates_not_korean (u : Z) :
  Js.isLeadSurrogate u || Js.isTrailSurrogate u = true -> koreanClass u = false.
Proof.
  unfold Js.isLeadSurrogate, Js.isTrailSurrogate, koreanClass. lia.
Qed.

(** ** The callback and the fold *)

(** A letter that matches the class is one UTF-16 unit of the class. *)
Lemma korean_letter_single (letter : jstring) :
  oneCodePoint letter = true ->
  Js.truthy (Js.matchClassG koreanClass letter) = true ->
  exists u, letter = [u] /\ koreanClass u = true.
Proof.
  rewrite truthy_matchClassG.
  destruct letter as [|u [|v [|w l]]]; cbn [oneCodePoint existsb]; try discriminate.
  - rewrite orb_false_r. intros _ Hu. now exists u.
  - intros Hp. apply andb_prop in Hp as [Hu Hv].
    rewrite (surrogates_not_korean u), (surrogates_not_korean v)
      by (rewrite ?Hu, ?Hv, ?orb_true_r; reflexivity).
    discriminate.
Qed.

Lemma getUnicode_single (u : Z) : getUnicode [u] = Ok (Num (inject_Z u)).
Proof. reflexivity. Qed.

Lemma getUnicode_throws_iff (letter : jstring) :
  getUnicode letter = Err NotOneLetter <-> length letter <> 1%nat.
Proof.
  unfold getUnicode.
  destruct (Z.of_nat (length letter) =? 1) eqn:E; cbn [negb].
  - split; [discriminate | lia].
  - split; [lia | reflexivity].
Qed.

Lemma pushLetter_korean (arr : list grapheme) (u : Z) :
  koreanClass u = true ->
  exists ix,
    splitGrapheme (Num (inject_Z u)) = Ok ix
    /\ pushLetter arr [u]
       = Ok (arr ++ [koreanRecord ix]).
Proof.
  intros Hu. eexists. split; [apply splitGrapheme_int|].
  unfold pushLetter.
  rewrite truthy_matchClassG. cbn [existsb]. rewrite Hu. cbn [orb].
  rewrite getUnicode_single. cbn [bind].
  rewrite splitGrapheme_int. reflexivity.
Qed.

Lemma pushLetter_other (arr : list grapheme) (letter : jstring) :
  existsb koreanClass letter = false ->
  pushLetter arr letter = Ok (arr ++ [mkGrapheme false letter None None]).
Proof.
  intros H. unfold pushLetter. now rewrite truthy_matchClassG, H.
Qed.

Lemma pushLetter_total (letter : jstring) :
  oneCodePoint letter = true -> exists g, recordOf letter g.
Proof.
  intros Hl.
  destruct (Js.truthy (Js.matchClassG koreanClass letter)) eqn:E.
  - destruct (korean_letter_single letter Hl E) as (u & -> & Hu).
    eexists. intros arr.
    destruct (pushLetter_korean arr u Hu) as (ix & Hix & Hp).
    rewrite splitGrapheme_int in Hix. injection Hix as <-. exact Hp.
  - rewrite truthy_matchClassG in E.
    eexists. intros arr. now apply pushLetter_other.
Qed.

Lemma reduce_pushLetter (letters : list jstring) :
  Forall (fun letter => oneCodePoint letter = true) letters ->
  forall acc, exists rs,
    reduce pushLetter letters acc = Ok (acc ++ rs)
    /\ Forall2 recordOf letters rs.
Proof.
  induction 1 as [|letter letters Hl _ IH]; intros acc.
  - exists []. split; [now rewrite app_nil_r | constructor].
  - destruct (pushLetter_total letter Hl) as (g & Hg).
    destruct (IH (acc ++ [g])) as (rs & Hrs & Hall).
    exists (g :: rs). split; [| now constructor].
    cbn [reduce]. rewrite Hg. cbn [bind].
    rewrite Hrs, <- app_assoc. reflexivity.
Qed.

Lemma getGraphemeList_empty : getGraphemeList [] = Err EmptyWord.
Proof. reflexivity. Qed.

Lemma getGraphemeList_nonempty (word : jstring) :
  word <> [] ->
  exists rs,
    getGraphemeList word = Ok rs /\ Forall2 recordOf (splitWord word) rs.
Proof.
  intros Hw. unfold getGraphemeList.
  destruct word as [|u word]; [congruence|].
  assert (E : (Z.of_nat (length (u :: word)) <? 1) = false)
    by (apply Z.ltb_ge; cbn [length]; lia).
  rewrite E.
  destruct (reduce_pushLetter _ (splitWord_code_points (u :: word)) [])
    as (rs & Hrs & Hall).
  exists rs. split; assumption.
Qed.

Lemma getGraphemeList_single (u : Z) : getGraphemeList [u] = pushLetter [] [u].
Proof.
  unfold getGraphemeList. cbn [length Z.of_nat Pos.of_succ_nat Z.ltb Z.compare
                               Pos.compare Pos.compare_cont splitWord Js.spread
                               reduce].
  destruct (pushLetter [] [u]); reflexivity.
Qed.

(** ** Decomposition of a word *)

(** C3: on a non-empty word [getGraphemeList] returns a list with exactly
    as many records as the word has code points ([codePointCount], counted on
    the UTF-16 units, not through [splitWord]), the i-th record being the one
    pushed for the i-th letter; the letters are the code points of the word,
    in order: each is a single unit or a surrogate pair, together they spell
    the word, and no surrogate pair is cut in two letters. *)
Theorem getGraphemeList_one_per_code_point (word : jstring) :
  word <> [] ->
  exists rs,
    getGraphemeList word = Ok rs
    /\ length rs = codePointCount word
    /\ length rs = length (splitWord word)
    /\ Forall2 recordOf (splitWord word) rs
    /\ concat (splitWord word) = word
    /\ Forall (fun letter => oneCodePoint letter = true) (splitWord word)
    /\ (forall pre u letter post v,
          splitWord word = pre ++ [u] :: letter :: post ->
          hd_error letter = Some v ->
          Js.isLeadSurrogate u && Js.isTrailSurrogate v = false).
Proof.
  intros Hw.
  destruct (getGraphemeList_nonempty word Hw) as (rs & Hrs & Hall).
  exists rs. split; [exact Hrs|].
  split.
  { rewrite <- splitWord_length_code_points.
    symmetry; exact (Forall2_length Hall). }
  split; [symmetry; exact (Forall2_length Hall)|].
  split; [exact Hall|].
  split; [apply splitWord_concat|].
  split; [apply splitWord_code_points | apply splitWord_keeps_pairs].
Qed.

Lemma getGraphemeList_one_per_code_point_witness :
  [0x61; 0xD55C; 0xD83D; 0xDE00] <> []
  /\ exists rs,
       getGraphemeList [0x61; 0xD55C; 0xD83D; 0xDE00] = Ok rs
       /\ length rs = codePointCount [0x61; 0xD55C; 0xD83D; 0xDE00]
       /\ length rs = length (splitWord [0x61; 0xD55C; 0xD83D; 0xDE00])
       /\ Forall2 recordOf (splitWord [0x61; 0xD55C; 0xD83D; 0xDE00]) rs
       /\ concat (splitWord [0x61; 0xD55C; 0xD83D; 0xDE00])
          = [0x61; 0xD55C; 0xD83D; 0xDE00]
       /\ Forall (fun letter => oneCodePoint letter = true)
                 (splitWord [0x61; 0xD55C; 0xD83D; 0xDE00])
       /\ (forall pre u letter post v,
             splitWord [0x61; 0xD55C; 0xD83D; 0xDE00]
             = pre ++ [u] :: letter :: post ->
             hd_error letter = Some v ->
             Js.isLeadSurrogate u && Js.isTrailSurrogate v = false).
Proof.
  split; [discriminate|].
  apply (getGraphemeList_one_per_code_point [0x61; 0xD55C; 0xD83D; 0xDE00]).
  discriminate.
Defined.

(** C4: the letter [|] (U+007C) lies in neither Hangul range, yet it belongs
    to the character class of the callback, so it is classified as Hangul and
    decomposed: the record has [isKorean = true] and three characters
    computed from a negative offset. *)
Theorem vertical_bar_classified_korean :
  ~ (0x3131 <= 0x7C <= 0x314E)
  /\ ~ (0xAC00 <= 0x7C <= 0xD7A3)
  /\ koreanClass 0x7C = true
  /\ splitGrapheme (Num (inject_Z 0x7C)) = Ok (mkIndices (-75) (-15) (-4))
  /\ getGraphemeList [0x7C]
     = Ok [mkGrapheme true [0x10B5] (Some [0x1152]) (Some [0x11A3])].
Proof.
  split; [lia|]. split; [lia|]. repeat split.
Qed.

(** X1: a letter whose code point is outside both Hangul ranges and is not [|]
    is passed through: the record is [{isKorean: false, initial: letter}]. *)
Theorem other_letter_passed_through (letter : jstring) (cp : Z) :
  oneCodePoint letter = true ->
  Js.codePointAt0 letter = Some cp ->
  ~ (0x3131 <= cp <= 0x314E) ->
  ~ (0xAC00 <= cp <= 0xD7A3) ->
  cp <> 0x7C ->
  recordOf letter (mkGrapheme false letter None None).
Proof.
  intros Hl Hcp H1 H2 H3 arr. apply pushLetter_other.
  destruct letter as [|u [|v [|w l]]]; cbn [oneCodePoint] in Hl; try discriminate.
  - cbn in Hcp. injection Hcp as ->.
    cbn [existsb]. unfold koreanClass. lia.
  - apply andb_prop in Hl as [Hu Hv].
    cbn [existsb].
    rewrite (surrogates_not_korean u), (surrogates_not_korean v)
      by (rewrite ?Hu, ?Hv, ?orb_true_r; reflexivity).
    reflexivity.
Qed.

Lemma other_letter_passed_through_witness :
  recordOf [0xD83D; 0xDE00] (mkGrapheme false [0xD83D; 0xDE00] None None).
Proof.
  apply (other_letter_passed_through [0xD83D; 0xDE00] 0x1F600);
    [reflexivity | reflexivity | lia | lia | lia].
Defined.

(** C5, as stated, fails: the components of U+D55C are not the
    compatibility jamo U+314E, U+314F, U+3134 the example is written with. *)
Lemma han_not_compatibility_jamo :
  getGraphemeList [0xD55C]
  <> Ok [mkGrapheme true [0x314E] (Some [0x314F]) (Some [0x3134])].
Proof. discriminate. Qed.

(** C5, amended: [getGraphemeList] of the one-letter word U+D55C is the
    one-element list holding [{isKorean: true}] with the conjoining jamo
    U+1112 (initial), U+1161 (medial) and U+11AB (final). *)
Theorem getGraphemeList_han :
  getGraphemeList [0xD55C]
  = Ok [mkGrapheme true [0x1112] (Some [0x1161]) (Some [0x11AB])].
Proof. reflexivity. Qed.

(** C6: for a syllable of U+AC00..U+D7A3 whose final index is 0 the record
    still has a [final] field, holding the character U+11A7
    ([firstFinal] + 0). *)
Theorem final_index_zero_gives_filler (c : Z) :
  0xAC00 <= c <= 0xD7A3 ->
  getFinalIndex (Num (inject_Z c)) = Ok 0 ->
  exists i m,
    getGraphemeList [c] = Ok [mkGrapheme true i (Some m) (Some [0x11A7])]
    /\ [0x11A7] = Js.fromCharCode (firstFinal + 0).
Proof.
  intros Hc Hf.
  assert (Hk : koreanClass c = true) by (unfold koreanClass; lia).
  destruct (pushLetter_korean [] c Hk) as (ix & Hix & Hp).
  rewrite getGraphemeList_single, Hp.
  unfold splitGrapheme in Hix. rewrite Hf in Hix.
  destruct (getInitialIndex _) as [i|]; [|discriminate].
  destruct (getMedialIndex _) as [m|]; [|discriminate].
  injection Hix as <-.
  do 2 eexists. split; reflexivity.
Qed.

Lemma final_index_zero_gives_filler_witness :
  exists i m,
    getGraphemeList [0xAC00] = Ok [mkGrapheme true i (Some m) (Some [0x11A7])]
    /\ [0x11A7] = Js.fromCharCode (firstFinal + 0).
Proof.
  apply (final_index_zero_gives_filler 0xAC00); [lia | reflexivity].
Defined.

(** ** Errors *)

(** C7: [getGraphemeList] throws if and only if the word is empty; the error
    is then the one of the length check of [getGraphemeList] and no list is
    returned; on a non-empty word a list is returned. *)
Theorem getGraphemeList_throws_iff_empty (word : jstring) :
  ((exists e, getGraphemeList word = Err e) <-> word = [])
  /\ (forall e, getGraphemeList word = Err e -> e = EmptyWord)
  /\ (forall rs, getGraphemeList word = Ok rs -> word <> [])
  /\ (word <> [] -> exists rs, getGraphemeList word = Ok rs).
Proof.
  destruct word as [|u word].
  - rewrite getGraphemeList_empty. repeat split.
    + now exists EmptyWord.
    + intros e [= <-]. reflexivity.
    + discriminate.
    + congruence.
  - destruct (getGraphemeList_nonempty (u :: word)) as (rs & Hrs & _);
      [discriminate|].
    rewrite Hrs. repeat split; try discriminate.
    + intros (e & He). discriminate.
    + intros _. now exists rs.
Qed.

(** C8: a standalone jamo of U+3131..U+314E goes through the arithmetic of
    the syllables: no error is thrown, the record pushed has
    [isKorean = true] and its three characters come from the indices
    [splitGrapheme] returns, the initial index being negative. *)
Theorem standalone_jamo_decomposed (c : Z) :
  0x3131 <= c <= 0x314E ->
  exists ix,
    splitGrapheme (Num (inject_Z c)) = Ok ix
    /\ recordOf [c] (koreanRecord ix)
    /\ getGraphemeList [c] = Ok [koreanRecord ix]
    /\ isKorean (koreanRecord ix) = true
    /\ initialIx ix < 0.
Proof.
  intros Hc.
  assert (Hk : koreanClass c = true) by (unfold koreanClass; lia).
  destruct (pushLetter_korean [] c Hk) as (ix & Hix & Hp).
  exists ix. split; [exact Hix|]. split.
  - intros arr. destruct (pushLetter_korean arr c Hk) as (ix' & Hix' & Hp').
    rewrite Hix in Hix'. injection Hix' as <-. exact Hp'.
  - split; [now rewrite getGraphemeList_single|]. split; [reflexivity|].
    rewrite splitGrapheme_int in Hix. injection Hix as <-.
    cbn [initialIx]. unfold korGAUnicode, medialCount, finalCount.
    Z.to_euclidean_division_equations. lia.
Qed.

Lemma standalone_jamo_decomposed_witness :
  exists ix,
    splitGrapheme (Num (inject_Z 0x3131)) = Ok ix
    /\ recordOf [0x3131] (koreanRecord ix)
    /\ getGraphemeList [0x3131] = Ok [koreanRecord ix]
    /\ isKorean (koreanRecord ix) = true
    /\ initialIx ix < 0.
Proof.
  apply (standalone_jamo_decomposed 0x3131); lia.
Defined.

(** C9, as stated, fails: the letter U+1F600 is exactly one code point, held
    in two UTF-16 units; [splitWord] yields it as one letter and
    [codePointAt] reads its scalar value, but [getUnicode] throws on it, its
    guard being on [length]. *)
Lemma getUnicode_rejects_astral_letter :
  codePointCount [0xD83D; 0xDE00] = 1%nat
  /\ splitWord [0xD83D; 0xDE00] = [[0xD83D; 0xDE00]]
  /\ oneCodePoint [0xD83D; 0xDE00] = true
  /\ Js.codePointAt0 [0xD83D; 0xDE00] = Some 0x1F600
  /\ getUnicode [0xD83D; 0xDE00] = Err NotOneLetter.
Proof. repeat split. Qed.

(** C9, amended: [getUnicode] returns the numeric value of its input
    whenever the input is exactly one code point held in one UTF-16 unit,
    and it throws, with its one-letter error, if and only if the input has
    zero or more than one code point or is one code point held in a
    surrogate pair. *)
Theorem getUnicode_one_unit_code_point (letter : jstring) :
  (forall u, letter = [u] ->
             codePointCount letter = 1%nat
             /\ Js.codePointAt0 letter = Some u
             /\ getUnicode letter = Ok (Num (inject_Z u)))
  /\ ((exists e, getUnicode letter = Err e) <->
      codePointCount letter <> 1%nat
      \/ exists lead trail,
           letter = [lead; trail]
           /\ Js.isLeadSurrogate lead && Js.isTrailSurrogate trail = true)
  /\ (forall e, getUnicode letter = Err e -> e = NotOneLetter).
Proof.
  split; [intros u ->; repeat split|].
  destruct letter as [|u [|v l]].
  - split; [split|].
    + intros _. left. discriminate.
    + intros _. now exists NotOneLetter.
    + intros e [= <-]. reflexivity.
  - rewrite getUnicode_single. split; [split|]; try discriminate.
    + intros (e & He). discriminate.
    + intros [H|(lead & trail & H & _)]; [now contradiction H | discriminate].
  - assert (E : getUnicode (u :: v :: l) = Err NotOneLetter).
    { apply getUnicode_throws_iff. discriminate. }
    rewrite E. split; [split|].
    + intros _. unfold codePointCount. cbn [countCodePoints andb].
      destruct (Js.isLeadSurrogate u && Js.isTrailSurrogate v) eqn:P.
      * destruct l as [|w l].
        -- right. now exists u, v.
        -- left. cbn [countCodePoints andb]. discriminate.
      * left. discriminate.
    + intros _. now exists NotOneLetter.
    + intros e [= <-]. reflexivity.
Qed.

(** X2: [getUnicode] returns the unit of a one-unit string and throws on every
    string of another length in UTF-16 units. *)
Theorem getUnicode_by_length (letter : jstring) :
  (forall u, letter = [u] -> getUnicode letter = Ok (Num (inject_Z u)))
  /\ ((exists e, getUnicode letter = Err e) <-> length letter <> 1%nat)
  /\ (forall e, getUnicode letter = Err e -> e = NotOneLetter).
Proof.
  split; [intros u ->; apply getUnicode_single|].
  destruct letter as [|u [|v l]].
  - split; [split; [discriminate | now exists NotOneLetter]|].
    intros e [= <-]. reflexivity.
  - rewrite getUnicode_single. split; [split|]; try discriminate.
    + intros (e & He). discriminate.
    + intros H. now contradiction H.
  - assert (E : getUnicode (u :: v :: l) = Err NotOneLetter).
    { apply getUnicode_throws_iff. discriminate. }
    rewrite E. split; [split; [discriminate | now exists NotOneLetter]|].
    intros e [= <-]. reflexivity.
Qed.

(** C10: on a non-empty word [getGraphemeList] returns a list; every letter
    of the word that matches the character class is a single UTF-16 unit, so
    [getUnicode] returns a number for it and the index functions, given that
    number, return as well. *)
Theorem getGraphemeList_never_throws_inside (word : jstring) :
  word <> [] ->
  (exists rs, getGraphemeList word = Ok rs)
  /\ forall letter,
       In letter (splitWord word) ->
       Js.truthy (Js.matchClassG koreanClass letter) = true ->
       exists v ix,
         length letter = 1%nat
         /\ getUnicode letter = Ok v
         /\ typeof v = TNumber
         /\ splitGrapheme v = Ok ix.
Proof.
  intros Hw. split.
  - destruct (getGraphemeList_nonempty word Hw) as (rs & Hrs & _).
    now exists rs.
  - intros letter Hin Hm.
    pose proof (splitWord_code_points word) as Hall.
    rewrite Forall_forall in Hall.
    destruct (korean_letter_single letter (Hall _ Hin) Hm) as (u & -> & _).
    exists (Num (inject_Z u)). eexists.
    split; [reflexivity|]. split; [apply getUnicode_single|].
    split; [reflexivity | apply splitGrapheme_int].
Qed.

Lemma getGraphemeList_never_throws_inside_witness :
  (exists rs, getGraphemeList [0x7C; 0xD83D; 0xDE00; 0xD55C] = Ok rs)
  /\ forall letter,
       In letter (splitWord [0x7C; 0xD83D; 0xDE00; 0xD55C]) ->
       Js.truthy (Js.matchClassG koreanClass letter) = true ->
       exists v ix,
         length letter = 1%nat
         /\ getUnicode letter = Ok v
         /\ typeof v = TNumber
         /\ splitGrapheme v = Ok ix.
Proof.
  apply (getGraphemeList_never_throws_inside [0x7C; 0xD83D; 0xDE00; 0xD55C]).
  discriminate.
Defined.

(** ** Further properties of the index arithmetic *)

Ltac unfold_consts :=
  unfold korGAUnicode, firstInitial, firstMedial, firstFinal,
         medialCount, finalCount, initialCount in *.

Ltac unfold_letters :=
  unfold koreanRecord, getInitialLetter, getMedialLetter, getFinalLetter,
         getLetterFromUnicode, Js.fromCharCode, Js.toUint16 in *;
  cbn [initialIx medialIx finalIx] in *.

Lemma Ok_inj (A : Type) (a b : A) : Ok a = Ok b -> a = b.
Proof. intros H. now inversion H. Qed.

(** X14: on every code point from U+AC00 to U+10FFFF, also beyond the
    syllable block, the three indices are non-negative, the medial index is
    below 21, the final index below 28, and [i * 588 + m * 28 + f] is the
    offset from U+AC00. *)
Theorem index_round_trip_above (c : Z) :
  korGAUnicode <= c <= 0x10FFFF ->
  exists i m f,
    splitGrapheme (Num (inject_Z c)) = Ok (mkIndices i m f)
    /\ 0 <= i /\ 0 <= m < medialCount /\ 0 <= f < finalCount
    /\ i * (medialCount * finalCount) + m * finalCount + f = c - korGAUnicode.
Proof.
  intros Hc. rewrite splitGrapheme_int. do 3 eexists. split; [reflexivity|].
  unfold_consts. Z.to_euclidean_division_equations. lia.
Qed.

Lemma index_round_trip_above_witness :
  exists i m f,
    splitGrapheme (Num (inject_Z 0xD7A4)) = Ok (mkIndices i m f)
    /\ 0 <= i /\ 0 <= m < medialCount /\ 0 <= f < finalCount
    /\ i * (medialCount * finalCount) + m * finalCount + f
       = 0xD7A4 - korGAUnicode.
Proof.
  apply (index_round_trip_above 0xD7A4). unfold korGAUnicode. lia.
Defined.

(** X15: on every code point below U+AC00 the initial index is negative,
    the medial index lies in [-21, 0] and the final index in (-28, 0];
    [i * 588 + m * 28 + f] gives back the offset only when the offset is a
    multiple of 588. *)
Theorem index_round_trip_below (c : Z) :
  0 <= c < korGAUnicode ->
  exists i m f,
    splitGrapheme (Num (inject_Z c)) = Ok (mkIndices i m f)
    /\ i < 0 /\ - medialCount <= m <= 0 /\ - finalCount < f <= 0
    /\ (i * (medialCount * finalCount) + m * finalCount + f = c - korGAUnicode
        <-> (korGAUnicode - c) mod (medialCount * finalCount) = 0).
Proof.
  intros Hc. rewrite splitGrapheme_int. do 3 eexists. split; [reflexivity|].
  unfold_consts. Z.to_euclidean_division_equations. lia.
Qed.

Lemma index_round_trip_below_witness :
  exists i m f,
    splitGrapheme (Num (inject_Z 0x3131)) = Ok (mkIndices i m f)
    /\ i < 0 /\ - medialCount <= m <= 0 /\ - finalCount < f <= 0
    /\ (i * (medialCount * finalCount) + m * finalCount + f
        = 0x3131 - korGAUnicode
        <-> (korGAUnicode - 0x3131) mod (medialCount * finalCount) = 0).
Proof.
  apply (index_round_trip_below 0x3131). unfold korGAUnicode. lia.
Defined.

(** X16: on the code points from U+AC00 to U+10FFFF the index triple grows
    with the code point: for [c1 < c2] the triple of [c1] is
    lexicographically below the triple of [c2]. *)
Theorem index_order (c1 c2 : Z) :
  korGAUnicode <= c1 < c2 /\ c2 <= 0x10FFFF ->
  exists i1 m1 f1 i2 m2 f2,
    splitGrapheme (Num (inject_Z c1)) = Ok (mkIndices i1 m1 f1)
    /\ splitGrapheme (Num (inject_Z c2)) = Ok (mkIndices i2 m2 f2)
    /\ (i1 < i2 \/ (i1 = i2 /\ (m1 < m2 \/ (m1 = m2 /\ f1 < f2)))).
Proof.
  intros Hc. rewrite !splitGrapheme_int. do 6 eexists.
  split; [reflexivity|]. split; [reflexivity|].
  unfold_consts. Z.to_euclidean_division_equations. lia.
Qed.

Lemma index_order_witness :
  exists i1 m1 f1 i2 m2 f2,
    splitGrapheme (Num (inject_Z 0xAC1B)) = Ok (mkIndices i1 m1 f1)
    /\ splitGrapheme (Num (inject_Z 0xAC1C)) = Ok (mkIndices i2 m2 f2)
    /\ (i1 < i2 \/ (i1 = i2 /\ (m1 < m2 \/ (m1 = m2 /\ f1 < f2)))).
Proof.
  apply (index_order 0xAC1B 0xAC1C). unfold korGAUnicode. lia.
Defined.

(** ** Letters of the records *)

Lemma recordOf_korean (u : Z) :
  koreanClass u = true ->
  exists ix,
    splitGrapheme (Num (inject_Z u)) = Ok ix /\ recordOf [u] (koreanRecord ix).
Proof.
  intros Hu. eexists. split; [apply splitGrapheme_int|].
  intros arr. destruct (pushLetter_korean arr u Hu) as (ix & Hix & Hp).
  rewrite splitGrapheme_int in Hix. apply Ok_inj in Hix. subst ix. exact Hp.
Qed.

(** X3: the record of a syllable of U+AC00..U+D7A3 holds three one-unit
    strings of the Hangul Jamo block: an initial in U+1100..U+1112, a medial
    in U+1161..U+1175 and a final in U+11A7..U+11C2; their offsets from the
    three block starts recompose the syllable. *)
Theorem syllable_letters_recompose (c : Z) :
  0xAC00 <= c <= 0xD7A3 ->
  exists a b d,
    getGraphemeList [c] = Ok [mkGrapheme true [a] (Some [b]) (Some [d])]
    /\ 0x1100 <= a <= 0x1112
    /\ 0x1161 <= b <= 0x1175
    /\ 0x11A7 <= d <= 0x11C2
    /\ (a - firstInitial) * (medialCount * finalCount)
       + (b - firstMedial) * finalCount + (d - firstFinal)
       = c - korGAUnicode.
Proof.
  intros Hc.
  assert (Hk : koreanClass c = true) by (unfold koreanClass; lia).
  destruct (pushLetter_korean [] c Hk) as (ix & Hix & Hp).
  rewrite getGraphemeList_single, Hp. clear Hp.
  rewrite splitGrapheme_int in Hix. apply Ok_inj in Hix. subst ix.
  unfold_letters. do 3 eexists. split; [reflexivity|].
  unfold_consts. Z.to_euclidean_division_equations. lia.
Qed.

Lemma syllable_letters_recompose_witness :
  exists a b d,
    getGraphemeList [0xAE00] = Ok [mkGrapheme true [a] (Some [b]) (Some [d])]
    /\ 0x1100 <= a <= 0x1112
    /\ 0x1161 <= b <= 0x1175
    /\ 0x11A7 <= d <= 0x11C2
    /\ (a - firstInitial) * (medialCount * finalCount)
       + (b - firstMedial) * finalCount + (d - firstFinal)
       = 0xAE00 - korGAUnicode.
Proof.
  apply (syllable_letters_recompose 0xAE00). lia.
Defined.

Lemma koreanClass_cases (u : Z) :
  koreanClass u = true ->
  0x3131 <= u <= 0x314E \/ u = 0x7C \/ 0xAC00 <= u <= 0xD7A3.
Proof. unfold koreanClass. lia. Qed.

(** The indices of a unit of the class are small enough for the three
    additions to stay inside one UTF-16 unit. *)
Lemma class_index_bounds (u : Z) (ix : indices) :
  koreanClass u = true ->
  splitGrapheme (Num (inject_Z u)) = Ok ix ->
  -75 <= initialIx ix <= 18 /\ -21 <= medialIx ix <= 20
  /\ -27 <= finalIx ix <= 27.
Proof.
  intros Hu Hix. rewrite splitGrapheme_int in Hix. apply Ok_inj in Hix.
  subst ix. cbn [initialIx medialIx finalIx].
  apply koreanClass_cases in Hu. unfold_consts.
  Z.to_euclidean_division_equations. lia.
Qed.

Lemma class_indices_injective (u1 u2 : Z) (ix : indices) :
  koreanClass u1 = true -> koreanClass u2 = true ->
  splitGrapheme (Num (inject_Z u1)) = Ok ix ->
  splitGrapheme (Num (inject_Z u2)) = Ok ix ->
  u1 = u2.
Proof.
  intros H1 H2 E1 E2. rewrite <- E2 in E1. clear E2.
  rewrite !splitGrapheme_int in E1. apply Ok_inj in E1.
  assert (Ei := f_equal initialIx E1).
  assert (Em := f_equal medialIx E1).
  assert (Ef := f_equal finalIx E1). clear E1.
  cbn [initialIx medialIx finalIx] in Ei, Em, Ef.
  apply koreanClass_cases in H1, H2. unfold_consts.
  destruct H1 as [H1|[H1|H1]]; destruct H2 as [H2|[H2|H2]];
    Z.to_euclidean_division_equations; lia.
Qed.

Lemma letter_of_index_injective (base i j : Z) :
  0 <= base + i < 65536 -> 0 <= base + j < 65536 ->
  getLetterFromUnicode (i + base) = getLetterFromUnicode (j + base) -> i = j.
Proof.
  unfold getLetterFromUnicode, Js.fromCharCode, Js.toUint16.
  intros Hi Hj E. assert (E' := f_equal (hd 0) E). cbn [hd] in E'.
  rewrite !Z.mod_small in E' by lia. lia.
Qed.

(** Two units of the class with the same record are the same unit. *)
Lemma koreanRecord_injective (u1 u2 : Z) (ix1 ix2 : indices) :
  koreanClass u1 = true -> koreanClass u2 = true ->
  splitGrapheme (Num (inject_Z u1)) = Ok ix1 ->
  splitGrapheme (Num (inject_Z u2)) = Ok ix2 ->
  koreanRecord ix1 = koreanRecord ix2 -> u1 = u2.
Proof.
  intros H1 H2 E1 E2 E.
  destruct (class_index_bounds u1 ix1 H1 E1) as (Bi1 & Bm1 & Bf1).
  destruct (class_index_bounds u2 ix2 H2 E2) as (Bi2 & Bm2 & Bf2).
  apply (class_indices_injective u1 u2 ix1 H1 H2 E1).
  rewrite E2. f_equal.
  destruct ix1 as [i1 m1 f1], ix2 as [i2 m2 f2].
  cbn [initialIx medialIx finalIx] in *.
  unfold koreanRecord in E. cbn [initialIx medialIx finalIx] in E.
  assert (Ei := f_equal initial E).
  assert (Em := f_equal (fun g => match medial g with
                                  | Some l => l
                                  | None => []
                                  end) E).
  assert (Ef := f_equal (fun g => match final g with
                                  | Some l => l
                                  | None => []
                                  end) E).
  cbn [initial medial final] in Ei, Em, Ef.
  unfold getInitialLetter in Ei. unfold getMedialLetter in Em.
  unfold getFinalLetter in Ef.
  apply letter_of_index_injective in Ei, Em, Ef; unfold_consts; try lia.
  congruence.
Qed.

(** X13: the three characters of a record with [isKorean = true] are never
    themselves in the character class: given back to [getGraphemeList] they
    are passed through as three records with [isKorean = false]. *)
Theorem korean_record_letters_not_korean (u : Z) :
  koreanClass u = true ->
  exists a b d,
    getGraphemeList [u] = Ok [mkGrapheme true [a] (Some [b]) (Some [d])]
    /\ getGraphemeList [a; b; d]
       = Ok [mkGrapheme false [a] None None;
             mkGrapheme false [b] None None;
             mkGrapheme false [d] None None].
Proof.
  intros Hk.
  destruct (recordOf_korean u Hk) as (ix & Hix & Hr).
  destruct (class_index_bounds u ix Hk Hix) as (Bi & Bm & Bf).
  rewrite getGraphemeList_single, (Hr []). clear Hr Hix.
  unfold_letters. do 3 eexists. split; [reflexivity|].
  assert (Ei : (initialIx ix + firstInitial) mod 65536
               = initialIx ix + firstInitial)
    by (apply Z.mod_small; unfold_consts; lia).
  assert (Em : (medialIx ix + firstMedial) mod 65536
               = medialIx ix + firstMedial)
    by (apply Z.mod_small; unfold_consts; lia).
  assert (Ef : (finalIx ix + firstFinal) mod 65536 = finalIx ix + firstFinal)
    by (apply Z.mod_small; unfold_consts; lia).
  rewrite Ei, Em, Ef.
  unfold getGraphemeList, splitWord.
  cbn [length Z.of_nat Pos.of_succ_nat Pos.succ Z.ltb Z.compare Pos.compare
       Pos.compare_cont].
  assert (Hi : Js.isLeadSurrogate (initialIx ix + firstInitial) = false)
    by (unfold Js.isLeadSurrogate; unfold_consts; lia).
  assert (Hm : Js.isLeadSurrogate (medialIx ix + firstMedial) = false)
    by (unfold Js.isLeadSurrogate; unfold_consts; lia).
  rewrite !spread_cons2, Hi, Hm. cbn [andb Js.spread reduce].
  repeat (rewrite pushLetter_other
            by (cbn [existsb]; unfold koreanClass; unfold_consts; lia);
          cbn [bind app]).
  reflexivity.
Qed.

Lemma korean_record_letters_not_korean_witness :
  exists a b d,
    getGraphemeList [0x3131] = Ok [mkGrapheme true [a] (Some [b]) (Some [d])]
    /\ getGraphemeList [a; b; d]
       = Ok [mkGrapheme false [a] None None;
             mkGrapheme false [b] None None;
             mkGrapheme false [d] None None].
Proof.
  apply (korean_record_letters_not_korean 0x3131). reflexivity.
Defined.

(** X10: on an integer of one UTF-16 unit [getLetterFromUnicode] and
    [getUnicode] are inverse to each other. *)
Theorem getLetterFromUnicode_round_trip (n : Z) :
  0 <= n < 65536 ->
  getLetterFromUnicode n = [n]
  /\ getUnicode (getLetterFromUnicode n) = Ok (Num (inject_Z n)).
Proof.
  intros Hn.
  assert (E : getLetterFromUnicode n = [n]).
  { unfold getLetterFromUnicode, Js.fromCharCode, Js.toUint16.
    now rewrite Z.mod_small. }
  split; [exact E|]. rewrite E. apply getUnicode_single.
Qed.

Lemma getLetterFromUnicode_round_trip_witness :
  getLetterFromUnicode 0x11A7 = [0x11A7]
  /\ getUnicode (getLetterFromUnicode 0x11A7) = Ok (Num (inject_Z 0x11A7)).
Proof.
  apply (getLetterFromUnicode_round_trip 0x11A7). lia.
Defined.

(** X12: [splitGrapheme] applied to what [getUnicode] returns never throws
    the error of the index functions: the composition returns exactly on the
    strings of one UTF-16 unit and throws the error of [getUnicode] on all
    others. *)
Theorem splitGrapheme_after_getUnicode (letter : jstring) :
  match u <- getUnicode letter ;; splitGrapheme u with
  | Ok _ => length letter = 1%nat
  | Err e => e = NotOneLetter /\ length letter <> 1%nat
  end.
Proof.
  destruct letter as [|u [|v l]].
  - cbn. split; [reflexivity | discriminate].
  - rewrite getUnicode_single. cbn [bind]. rewrite splitGrapheme_int.
    reflexivity.
  - assert (E : getUnicode (u :: v :: l) = Err NotOneLetter).
    { apply getUnicode_throws_iff. discriminate. }
    rewrite E. cbn [bind]. split; [reflexivity | discriminate].
Qed.

(** ** Records of a word *)

Lemma recordOf_unique (letter : jstring) (g g' : grapheme) :
  recordOf letter g -> recordOf letter g' -> g = g'.
Proof.
  intros H H'. specialize (H []). specialize (H' []).
  rewrite H in H'. apply Ok_inj in H'. now inversion H'.
Qed.

Lemma recordOf_cases (letter : jstring) (g : grapheme) :
  oneCodePoint letter = true ->
  recordOf letter g ->
  (exists u ix, letter = [u] /\ koreanClass u = true
                /\ splitGrapheme (Num (inject_Z u)) = Ok ix
                /\ g = koreanRecord ix)
  \/ (existsb koreanClass letter = false
      /\ g = mkGrapheme false letter None None).
Proof.
  intros Hl Hg.
  destruct (Js.truthy (Js.matchClassG koreanClass letter)) eqn:E.
  - left. destruct (korean_letter_single letter Hl E) as (u & -> & Hu).
    destruct (recordOf_korean u Hu) as (ix & Hix & Hr).
    exists u, ix. repeat split; try assumption.
    exact (recordOf_unique _ _ _ Hg Hr).
  - right. rewrite truthy_matchClassG in E. split; [exact E|].
    apply (recordOf_unique letter); [exact Hg|].
    intros arr. now apply pushLetter_other.
Qed.

Lemma recordOf_injective (l1 l2 : jstring) (g : grapheme) :
  oneCodePoint l1 = true -> oneCodePoint l2 = true ->
  recordOf l1 g -> recordOf l2 g -> l1 = l2.
Proof.
  intros H1 H2 R1 R2.
  destruct (recordOf_cases l1 g H1 R1)
    as [(u1 & ix1 & -> & K1 & S1 & G1)|[N1 G1]];
    destruct (recordOf_cases l2 g H2 R2)
      as [(u2 & ix2 & -> & K2 & S2 & G2)|[N2 G2]].
  - f_equal. apply (koreanRecord_injective u1 u2 ix1 ix2); congruence.
  - subst g. discriminate.
  - subst g. discriminate.
  - subst g. now inversion G2.
Qed.

Lemma records_injective (ls1 ls2 : list jstring) (rs : list grapheme) :
  Forall (fun l => oneCodePoint l = true) ls1 ->
  Forall (fun l => oneCodePoint l = true) ls2 ->
  Forall2 recordOf ls1 rs -> Forall2 recordOf ls2 rs -> ls1 = ls2.
Proof.
  intros F1 F2 R1. revert ls2 F2.
  induction R1 as [|l1 g ls1 rs Hg _ IH]; intros ls2 F2 R2.
  - now inversion R2.
  - inversion R2 as [|l2 g' ls2' rs' Hg' R2' E1 E2]; subst.
    inversion F1; inversion F2; subst.
    f_equal; [now apply (recordOf_injective l1 l2 g) | now apply IH].
Qed.

Lemma getGraphemeList_records (word : jstring) (rs : list grapheme) :
  getGraphemeList word = Ok rs ->
  word <> [] /\ Forall2 recordOf (splitWord word) rs.
Proof.
  intros H. destruct word as [|u word]; [discriminate|].
  split; [discriminate|].
  destruct (getGraphemeList_nonempty (u :: word)) as (rs' & Hrs & Hall);
    [discriminate|].
  rewrite H in Hrs. apply Ok_inj in Hrs. now subst.
Qed.

Lemma reduce_records (letters : list jstring) (rs : list grapheme) :
  Forall2 recordOf letters rs ->
  forall acc, reduce pushLetter letters acc = Ok (acc ++ rs).
Proof.
  induction 1 as [|l g ls rs Hg _ IH]; intros acc.
  - now rewrite app_nil_r.
  - cbn [reduce]. rewrite Hg. cbn [bind]. rewrite IH, <- app_assoc.
    reflexivity.
Qed.

Lemma getGraphemeList_of_records (word : jstring) (rs : list grapheme) :
  word <> [] ->
  Forall2 recordOf (splitWord word) rs ->
  getGraphemeList word = Ok rs.
Proof.
  intros Hw Hall. unfold getGraphemeList.
  assert (E : (Z.of_nat (length word) <? 1) = false).
  { apply Z.ltb_ge. destruct word; [congruence|]. cbn [length]. lia. }
  rewrite E. apply (reduce_records _ _ Hall).
Qed.

(** X4: [getGraphemeList] loses nothing: two words with the same outcome
    (the same list of records, or both the error) are the same word. *)
Theorem getGraphemeList_injective (w1 w2 : jstring) :
  getGraphemeList w1 = getGraphemeList w2 -> w1 = w2.
Proof.
  intros E.
  destruct (getGraphemeList w1) as [rs|e] eqn:E1.
  - symmetry in E.
    apply getGraphemeList_records in E1 as [_ R1].
    apply getGraphemeList_records in E as [_ R2].
    rewrite <- (splitWord_concat w1), <- (splitWord_concat w2).
    f_equal.
    apply (records_injective _ _ rs); auto using splitWord_code_points.
  - symmetry in E.
    destruct w1 as [|u1 w1].
    + destruct w2 as [|u2 w2]; [reflexivity|].
      destruct (getGraphemeList_nonempty (u2 :: w2)) as (rs & Hrs & _);
        [discriminate|]. congruence.
    + destruct (getGraphemeList_nonempty (u1 :: w1)) as (rs & Hrs & _);
        [discriminate|]. congruence.
Qed.

Lemma getGraphemeList_injective_witness :
  [0x7C; 0xD55C; 0x3131] = [0x7C; 0xD55C; 0x3131].
Proof.
  apply (getGraphemeList_injective [0x7C; 0xD55C; 0x3131]
                                   [0x7C; 0xD55C; 0x3131]).
  reflexivity.
Defined.

(** ** Splitting and joining words *)

(** X6: [splitWord] yields at most as many letters as the word has UTF-16
    units, and at least half as many. *)
Theorem splitWord_length_bounds (word : jstring) :
  (length (splitWord word) <= length word <= 2 * length (splitWord word))%nat.
Proof.
  unfold splitWord.
  induction word as [|x|x y l IHl IHyl] using list_pair_ind.
  - cbn. lia.
  - cbn. lia.
  - rewrite spread_cons2.
    destruct (Js.isLeadSurrogate x && Js.isTrailSurrogate y);
      cbn [length] in *; lia.
Qed.

Lemma splitWord_no_lead (word : jstring) :
  Forall (fun u => Js.isLeadSurrogate u = false) word ->
  splitWord word = map (fun u => [u]) word.
Proof.
  unfold splitWord.
  induction word as [|x|x y l IHl IHyl] using list_pair_ind; intros H.
  - reflexivity.
  - reflexivity.
  - rewrite spread_cons2. inversion H as [|? ? Hx Hyl]; subst.
    rewrite Hx. cbn [andb map]. f_equal. now apply IHyl.
Qed.

(** X7: on a non-empty word without lead surrogates every UTF-16 unit is a
    letter of its own: the list returned has [word.length] records, the i-th
    being the record of the i-th unit. *)
Theorem getGraphemeList_no_lead_surrogate (word : jstring) :
  word <> [] ->
  Forall (fun u => Js.isLeadSurrogate u = false) word ->
  exists rs,
    getGraphemeList word = Ok rs
    /\ length rs = length word
    /\ Forall2 (fun u g => recordOf [u] g) word rs.
Proof.
  intros Hw Hl.
  destruct (getGraphemeList_nonempty word Hw) as (rs & Hrs & Hall).
  exists rs. split; [exact Hrs|].
  rewrite (splitWord_no_lead word Hl) in Hall.
  assert (H2 : Forall2 (fun u g => recordOf [u] g) word rs).
  { clear Hrs Hw Hl. revert rs Hall.
    induction word as [|u word IH]; intros rs Hall; inversion Hall; subst.
    - constructor.
    - constructor; [assumption | now apply IH]. }
  split; [symmetry; exact (Forall2_length H2) | exact H2].
Qed.

Lemma getGraphemeList_no_lead_surrogate_witness :
  exists rs,
    getGraphemeList [0x61; 0xD55C; 0x7C] = Ok rs
    /\ length rs = length [0x61; 0xD55C; 0x7C]
    /\ Forall2 (fun u g => recordOf [u] g) [0x61; 0xD55C; 0x7C] rs.
Proof.
  apply (getGraphemeList_no_lead_surrogate [0x61; 0xD55C; 0x7C]).
  - discriminate.
  - repeat constructor.
Defined.

(** The iterator cuts a concatenation where the two words meet, unless a
    lead surrogate ending the first meets a trail surrogate starting the
    second. *)
Lemma spread_app (w1 w2 : jstring) :
  (forall w u v, w1 = w ++ [u] -> hd_error w2 = Some v ->
                 Js.isLeadSurrogate u && Js.isTrailSurrogate v = false) ->
  Js.spread (w1 ++ w2) = Js.spread w1 ++ Js.spread w2.
Proof.
  induction w1 as [|x|x y l IHl IHyl] using list_pair_ind; intros H.
  - reflexivity.
  - destruct w2 as [|v r]; [reflexivity|].
    cbn [app]. rewrite spread_cons2.
    rewrite (H [] x v eq_refl eq_refl). reflexivity.
  - cbn [app]. rewrite !spread_cons2.
    destruct (Js.isLeadSurrogate x && Js.isTrailSurrogate y).
    + cbn [app]. f_equal. apply IHl.
      intros w u v -> Hv. apply (H (x :: y :: w) u v eq_refl Hv).
    + cbn [app]. f_equal. apply IHyl.
      intros w u v Hw Hv. apply (H (x :: w) u v); [|exact Hv].
      cbn [app]. now rewrite <- Hw.
Qed.

(** X5: [getGraphemeList] of a concatenation is the concatenation of the
    two lists of records, provided the first word does not end with a lead
    surrogate that the second word continues with a trail surrogate. *)
Theorem getGraphemeList_app (w1 w2 : jstring) (rs1 rs2 : list grapheme) :
  (forall w u v, w1 = w ++ [u] -> hd_error w2 = Some v ->
                 Js.isLeadSurrogate u && Js.isTrailSurrogate v = false) ->
  getGraphemeList w1 = Ok rs1 ->
  getGraphemeList w2 = Ok rs2 ->
  getGraphemeList (w1 ++ w2) = Ok (rs1 ++ rs2).
Proof.
  intros Hb H1 H2.
  apply getGraphemeList_records in H1 as [N1 R1].
  apply getGraphemeList_records in H2 as [_ R2].
  apply getGraphemeList_of_records.
  - destruct w1; [congruence | discriminate].
  - unfold splitWord in *. rewrite (spread_app _ _ Hb).
    exact (Forall2_app R1 R2).
Qed.

Lemma getGraphemeList_app_witness :
  getGraphemeList ([0x61; 0xD83D] ++ [0xD55C])
  = Ok ([mkGrapheme false [0x61] None None;
         mkGrapheme false [0xD83D] None None]
        ++ [mkGrapheme true [0x1112] (Some [0x1161]) (Some [0x11AB])]).
Proof.
  apply (getGraphemeList_app [0x61; 0xD83D] [0xD55C]).
  - intros w u v _ Hv. cbn in Hv. injection Hv as <-.
    apply andb_false_r.
  - reflexivity.
  - reflexivity.
Defined.

(** X8: every record of the list returned has one of two shapes, decided by
    whether its letter holds a unit of the character class: either
    [isKorean = true] with three fields of exactly one UTF-16 unit each, or
    [isKorean = false] with the letter itself in [initial] and no [medial]
    and [final]. *)
Theorem getGraphemeList_record_shapes (word : jstring) (rs : list grapheme) :
  getGraphemeList word = Ok rs ->
  Forall2
    (fun letter g =>
       isKorean g = existsb koreanClass letter
       /\ if isKorean g
          then exists a b d,
                 g = mkGrapheme true [a] (Some [b]) (Some [d])
                 /\ 0 <= a < 65536 /\ 0 <= b < 65536 /\ 0 <= d < 65536
          else g = mkGrapheme false letter None None)
    (splitWord word) rs.
Proof.
  intros H. apply getGraphemeList_records in H as [_ Hall].
  pose proof (splitWord_code_points word) as Hcp.
  induction Hall as [|letter g ls rs Hg _ IH]; [constructor|].
  inversion Hcp as [|? ? Hl Hls]; subst.
  constructor; [| exact (IH Hls)].
  destruct (recordOf_cases letter g Hl Hg)
    as [(u & ix & -> & Hu & Hix & ->)|[Hn ->]].
  - cbn [isKorean koreanRecord existsb]. rewrite Hu. split; [reflexivity|].
    unfold_letters. do 3 eexists. split; [reflexivity|].
    repeat split; apply Z.mod_pos_bound; reflexivity.
  - cbn [isKorean]. now rewrite Hn.
Qed.

Lemma getGraphemeList_record_shapes_witness :
  Forall2
    (fun letter g =>
       isKorean g = existsb koreanClass letter
       /\ if isKorean g
          then exists a b d,
                 g = mkGrapheme true [a] (Some [b]) (Some [d])
                 /\ 0 <= a < 65536 /\ 0 <= b < 65536 /\ 0 <= d < 65536
          else g = mkGrapheme false letter None None)
    (splitWord [0xD83D; 0xDE00; 0x3131])
    [mkGrapheme false [0xD83D; 0xDE00] None None;
     mkGrapheme true [0x10CA] (Some [0x1157]) (Some [0x1190])].
Proof.
  apply (getGraphemeList_record_shapes [0xD83D; 0xDE00; 0x3131]).
  reflexivity.
Defined.

Lemma splitWord_units (word letter : jstring) (u : Z) :
  In letter (splitWord word) -> In u letter -> In u word.
Proof.
  intros Hl Hu. rewrite <- (splitWord_concat word).
  apply in_concat. now exists letter.
Qed.

(** X9: a non-empty word none of whose units is in the character class comes
    back unchanged: every record has [isKorean = false] and holds its letter,
    and the [initial] fields, joined in order, spell the word. *)
Theorem getGraphemeList_plain_text (word : jstring) :
  word <> [] ->
  existsb koreanClass word = false ->
  exists rs,
    getGraphemeList word = Ok rs
    /\ rs = map (fun letter => mkGrapheme false letter None None)
                (splitWord word)
    /\ concat (map initial rs) = word.
Proof.
  intros Hw Hn.
  assert (Hall : Forall2 recordOf (splitWord word)
                   (map (fun letter => mkGrapheme false letter None None)
                        (splitWord word))).
  { assert (Hin : forall letter, In letter (splitWord word) ->
                                 existsb koreanClass letter = false).
    { intros letter Hl.
      destruct (existsb koreanClass letter) eqn:E; [|reflexivity].
      apply existsb_exists in E as (u & Hu & Hk).
      assert (Hx : existsb koreanClass word = true).
      { apply existsb_exists. exists u. split; [|exact Hk].
        exact (splitWord_units word letter u Hl Hu). }
      congruence. }
    induction (splitWord word) as [|l ls IH]; [constructor|].
    cbn [map]. constructor.
    - intros arr. apply pushLetter_other. apply Hin. now left.
    - apply IH. intros letter Hl. apply Hin. now right. }
  eexists. split; [|split; [reflexivity|]].
  - exact (getGraphemeList_of_records word _ Hw Hall).
  - rewrite map_map. cbn [initial]. rewrite map_id. apply splitWord_concat.
Qed.

Lemma getGraphemeList_plain_text_witness :
  exists rs,
    getGraphemeList [0x61; 0xD83D; 0xDE00; 0x31] = Ok rs
    /\ rs = map (fun letter => mkGrapheme false letter None None)
                (splitWord [0x61; 0xD83D; 0xDE00; 0x31])
    /\ concat (map initial rs) = [0x61; 0xD83D; 0xDE00; 0x31].
Proof.
  apply (getGraphemeList_plain_text [0x61; 0xD83D; 0xDE00; 0x31]).
  - discriminate.
  - reflexivity.
Defined.
